(** * Radiation dose vs distance: the dose model and the curve of [app.py]

    The computational part of [app.py] is two statements long: the function
    [dose_at_distance] (lines 85-88) and the curve built from [np.linspace]
    (lines 107-108).  Both are embedded here once, over an abstract number
    type, and read at two number types:

    - [Q], exact rational arithmetic.  Every finite binary64 value is a
      rational, so every finite input of the program is covered; what is
      idealised is the rounding of each operation.  The algebraic properties
      are proved here.
    - [float], Rocq's primitive IEEE 754 binary64 numbers, the arithmetic
      NumPy really uses.  Concrete runs are evaluated here. *)

From Stdlib Require Import ZArith QArith Qminmax Qfield Lqa Lia.
From Stdlib Require Import String Bool List.
From Stdlib Require Import Floats.
Import ListNotations.

Set Implicit Arguments.
Set Warnings "-inexact-float".

(** ** Numbers *)

(** The operations the program applies to its numbers.  [lit_eps], [lit_one]
    and [lit_zero] are the literals [1e-6], [1.0] and [0]; [of_int] is the
    conversion NumPy applies to the integers of [arange] and to [num - 1]. *)
Class Number (A : Type) : Type := {
  lit_eps : A;
  lit_one : A;
  lit_zero : A;
  of_int : Z -> A;
  add : A -> A -> A;
  sub : A -> A -> A;
  mul : A -> A -> A;
  div : A -> A -> A;
  pow2 : A -> A;
  maximum : A -> A -> A;
  num_eqb : A -> A -> bool
}.

(** Exact arithmetic.  [Qmax x y] is [y] when [x < y] and [x] otherwise. *)
#[export] Instance exact : Number Q := {
  lit_eps := 1 # 1000000;
  lit_one := 1;
  lit_zero := 0;
  of_int := inject_Z;
  add := Qplus;
  sub := Qminus;
  mul := Qmult;
  div := Qdiv;
  pow2 := fun x => x ^ 2;
  maximum := Qmax;
  num_eqb := Qeq_bool
}.

(** [np.maximum] on binary64: the first argument when it is a NaN or not
    below the second, the second otherwise (so a NaN on either side comes
    out). *)
Definition f64_maximum (x y : float) : float :=
  if (PrimFloat.is_nan x || PrimFloat.leb y x)%bool then x else y.

(** binary64 arithmetic.  The literal [1e-6] denotes the binary64 value
    nearest to it, as in Python.  NumPy evaluates [x ** 2] as the product
    [x * x]. *)
#[export] Instance binary64 : Number float := {
  lit_eps := 1e-6%float;
  lit_one := 1%float;
  lit_zero := 0%float;
  of_int := fun z => PrimFloat.of_uint63 (Uint63.of_Z z);
  add := PrimFloat.add;
  sub := PrimFloat.sub;
  mul := PrimFloat.mul;
  div := PrimFloat.div;
  pow2 := fun x => PrimFloat.mul x x;
  maximum := f64_maximum;
  num_eqb := PrimFloat.eqb
}.


(** Strictly increasing binary64 numbers. *)
Fixpoint f64_increasing (l : list float) : bool :=
  match l with
  | x :: (y :: _) as tl => PrimFloat.ltb x y && f64_increasing tl
  | _ => true
  end.

(** ** Values of NumPy expressions: a scalar or a one-dimensional array *)

Inductive ndarray (A : Type) : Type :=
| Scalar (x : A)
| Array (xs : list A).

Arguments Scalar {A} x.
Arguments Array {A} xs.

(** A unary operation broadcast over a value keeps its shape. *)
Definition nd_map {A B : Type} (f : A -> B) (v : ndarray A) : ndarray B :=
  match v with
  | Scalar x => Scalar (f x)
  | Array xs => Array (map f xs)
  end.



(** A property of every element, and a relation between the elements of two
    values of the same shape. *)
Definition nd_all {A : Type} (P : A -> Prop) (v : ndarray A) : Prop :=
  match v with
  | Scalar x => P x
  | Array xs => Forall P xs
  end.

Definition nd_rel {A B : Type} (R : A -> B -> Prop) (u : ndarray A) (v : ndarray B) : Prop :=
  match u, v with
  | Scalar x, Scalar y => R x y
  | Array xs, Array ys => Forall2 R xs ys
  | _, _ => False
  end.

Definition nd_size {A : Type} (v : ndarray A) : nat :=
  match v with
  | Scalar _ => 1
  | Array xs => length xs
  end.

(** ** The dose model, [app.py] lines 85-88 *)

Section Model.
Context {A : Type} {num : Number A}.

(** A keyword argument with a default: [None] when the caller omits it. *)
Definition with_default (dflt : A) (arg : option A) : A :=
  match arg with
  | Some x => x
  | None => dflt
  end.

(** <<
    def dose_at_distance(d_m, D1m, r_ref, att=1.0, op=1.0):
        d_m = np.maximum(d_m, 1e-6)
        return D1m * (r_ref / d_m)**2 * att * op
    >>
    Each operator is a broadcast of the scalar operation, in the order
    Python evaluates them: the quotient, its square, then the three
    products from left to right. *)
Definition dose_at_distance (d_m : ndarray A) (D1m r_ref : A) (att op : option A)
  : ndarray A :=
  let att := with_default lit_one att in
  let op := with_default lit_one op in
  let d_m := nd_map (fun x => maximum x lit_eps) d_m in
  let quotient := nd_map (fun x => div r_ref x) d_m in
  let squared := nd_map pow2 quotient in
  let scaled := nd_map (fun x => mul D1m x) squared in
  let attenuated := nd_map (fun x => mul x att) scaled in
  nd_map (fun x => mul x op) attenuated.

(** The call on one distance with every argument given, as on line 90. *)
Definition dose (d_m D1m r_ref att op : A) : ndarray A :=
  dose_at_distance (Scalar d_m) D1m r_ref (Some att) (Some op).

End Model.

(** ** The curve, [app.py] lines 107-108 *)

(** A Python exception: its class, the format of its message and the value
    the message is formatted with. *)
Inductive exn : Type :=
| ValueError (msg : string) (arg : Z).

Inductive result (T : Type) : Type :=
| Ok (v : T)
| Raise (e : exn).

Arguments Ok {T} v.
Arguments Raise {T} e.

(** [np.arange(0, num)]: the integers [0 .. num-1], none when [num <= 0]. *)
Definition arange (num : Z) : list Z :=
  map Z.of_nat (seq 0 (Z.to_nat num)).

(** [y[-1] = v] on a non-empty array. *)
Definition set_last {T : Type} (y : list T) (v : T) : list T :=
  removelast y ++ [v].

Section Curve.
Context {A : Type} {num : Number A}.

(** [np.linspace(start, stop, num)] is a routine of NumPy, not of this
    repository; the definition follows NumPy's implementation for scalar
    bounds and the default [endpoint=True]:
    <<
    if num < 0:
        raise ValueError("Number of samples, %s, must be non-negative." % num)
    div = num - 1
    delta = stop - start
    y = arange(0, num)
    if div > 0:
        step = delta / div
        if step == 0: y /= div; y *= delta
        else:         y *= step
    else:
        y = y * delta
    y += start
    if num > 1: y[-1] = stop
    >> *)
Definition linspace (start stop : A) (n : Z) : result (list A) :=
  if (n <? 0)%Z then
    Raise (ValueError "Number of samples, %s, must be non-negative." n)
  else
    let dv := (n - 1)%Z in
    let delta := sub stop start in
    let y := map of_int (arange n) in
    let y :=
      if (0 <? dv)%Z then
        let step := div delta (of_int dv) in
        if num_eqb step lit_zero then
          map (fun v => mul (div v (of_int dv)) delta) y
        else
          map (fun v => mul v step) y
      else
        map (fun v => mul v delta) y in
    let y := map (fun v => add v start) y in
    let y := if (1 <? n)%Z then set_last y stop else y in
    Ok y.

(** <<
    d_grid = np.linspace(dist_min, dist_max, num_pts)
    D_grid = dose_at_distance(d_grid, dose_1m, r0, att_factor, fps_factor)
    >>
    The two arrays the plot is drawn from. *)
Definition sample_curve (dist_min dist_max : A) (num_pts : Z)
    (dose_1m r0 att_factor fps_factor : A) : result (list A * ndarray A) :=
  match linspace dist_min dist_max num_pts with
  | Raise e => Raise e
  | Ok d_grid =>
      Ok (d_grid,
          dose_at_distance (Array d_grid) dose_1m r0 (Some att_factor) (Some fps_factor))
  end.


End Curve.

(** ** One run of the script *)

Module Script.

(** What the widgets hand to the script in a run. *)
Record widgets (A : Type) : Type := {
  dose_1m : A;
  r0 : A;
  att_factor : A;
  fps_factor : A;
  dist_input : A;
  aplicar : bool;
  dist_min : A;
  dist_max : A;
  num_pts : Z
}.

(** [st.session_state]: the key [dist_aplicada], absent before the first
    run. *)
Record session_state (A : Type) : Type := {
  dist_aplicada : option A
}.

(** What a run shows: the distance and dose of the metric, and the curve
    (or the exception that ended the run there). *)
Record page (A : Type) : Type := {
  d : A;
  D_d : ndarray A;
  curve : result (list A * ndarray A)
}.

Section Run.
Context {A : Type} {num : Number A}.

(** Lines 67-78: the applied distance is initialised to [1.0] and replaced
    by the input when the button was pressed. *)
Definition apply_distance (ss : session_state A) (w : widgets A) : session_state A :=
  let ss :=
    match dist_aplicada ss with
    | None => {| dist_aplicada := Some lit_one |}
    | Some _ => ss
    end in
  if aplicar w then {| dist_aplicada := Some (dist_input w) |} else ss.

(** Lines 67-108: the new session state and what is shown. *)
Definition run (ss : session_state A) (w : widgets A) : session_state A * page A :=
  let ss := apply_distance ss w in
  let d := with_default lit_one (dist_aplicada ss) in
  let D_d := dose d (dose_1m w) (r0 w) (att_factor w) (fps_factor w) in
  let curve :=
    sample_curve (dist_min w) (dist_max w) (num_pts w)
      (dose_1m w) (r0 w) (att_factor w) (fps_factor w) in
  (ss, {| d := d; D_d := D_d; curve := curve |}).

End Run.

(** The [value] each widget is declared with, and the given distance input
    and button. *)
Definition initial_widgets (dist_input : Q) (aplicar : bool) : widgets Q := {|
  dose_1m := 50;
  r0 := 1;
  att_factor := 1;
  fps_factor := 1;
  dist_input := dist_input;
  aplicar := aplicar;
  dist_min := 1 # 2;
  dist_max := 5;
  num_pts := 200
|}.

(** The bounds the widgets are declared with (lines 31-52, 70-73 and
    103-105): [min_value] and [max_value] of each input. *)
Definition in_widget_bounds (w : widgets Q) : Prop :=
  0 <= dose_1m w /\
  1 # 10 <= r0 w /\
  (0 <= att_factor w /\ att_factor w <= 1) /\
  (1 # 2 <= fps_factor w /\ fps_factor w <= 2) /\
  1 # 10 <= dist_input w /\
  1 # 10 <= dist_min w /\
  dist_min w + (1 # 10) <= dist_max w /\
  (50 <= num_pts w <= 500)%Z.

End Script.

(** ** The words of the specification *)

(** Section 4.1: the distance is clamped to the floor, and
    [dose = referenceDose * (referenceDistance / clampedDistance)^2 *
            attenuationFactor * operationalFactor]. *)
Definition spec_dose {A : Type} {num : Number A}
    (distance referenceDose referenceDistance attenuationFactor operationalFactor : A) : A :=
  let clampedDistance := maximum distance lit_eps in
  mul (mul (mul referenceDose (pow2 (div referenceDistance clampedDistance)))
           attenuationFactor)
      operationalFactor.

Arguments spec_dose : simpl never.

(** Section 4.2, linear spacing: the [k]-th of [n] evenly spaced values
    spanning [start .. stop] inclusive. *)
Definition grid_point (start stop : Q) (n : Z) (k : nat) : Q :=
  start + inject_Z (Z.of_nat k) * ((stop - start) / inject_Z (n - 1)).

(** ** Reruns *)

(** Streamlit runs the script again on every interaction, handing it the
    session state the previous run left: the state after the runs [ws],
    oldest first. *)
Definition rerun {A : Type} {num : Number A}
    (ss : Script.session_state A) (ws : list (Script.widgets A)) : Script.session_state A :=
  fold_left (fun s w => fst (Script.run s w)) ws ss.

(** The distance input of the latest run of [ws] whose button was pressed. *)
Fixpoint last_applied {A : Type} (ws : list (Script.widgets A)) : option A :=
  match ws with
  | [] => None
  | w :: ws' =>
      match last_applied ws' with
      | Some x => Some x
      | None => if Script.aplicar w then Some (Script.dist_input w) else None
      end
  end.

(** A session state whose applied distance, when present, respects the
    [min_value] of the distance input. *)
Definition state_in_bounds (ss : Script.session_state Q) : Prop :=
  match Script.dist_aplicada ss with
  | Some x => 1 # 10 <= x
  | None => True
  end.


(** ** Tactics *)

(** Closed statements are settled by evaluation. *)
Ltac evaluate := vm_compute; first [reflexivity | discriminate].

(** The branches of [linspace] on a count known to be at least two. *)
Ltac count_at_least_two n :=
  destruct (Z.ltb_spec n 0) as [? | _]; [lia |];
  destruct (Z.ltb_spec 0 (n - 1)) as [_ | ?]; [| lia];
  destruct (Z.ltb_spec 1 n) as [_ | ?]; [| lia].

(** * Properties *)

(** ** Broadcasting *)

Section Broadcast.
Context {A B C : Type}.

Lemma nd_map_map (f : A -> B) (g : B -> C) (v : ndarray A) :
  nd_map g (nd_map f v) = nd_map (fun x => g (f x)) v.
Proof.
  destruct v as [x | xs]; simpl; [reflexivity | now rewrite map_map].
Qed.

Lemma nd_size_map (f : A -> B) (v : ndarray A) : nd_size (nd_map f v) = nd_size v.
Proof.
  destruct v as [x | xs]; simpl; [reflexivity | apply length_map].
Qed.


Lemma nd_rel_map (R : B -> C -> Prop) (f : A -> B) (g : A -> C) (v : ndarray A) :
  (forall x, R (f x) (g x)) -> nd_rel R (nd_map f v) (nd_map g v).
Proof.
  intros HR. destruct v as [x | xs]; simpl; [apply HR |].
  induction xs as [| x xs IH]; simpl; constructor; auto.
Qed.

End Broadcast.

(** ** The dose model computes the formula *)

(** The six broadcasts of [dose_at_distance] fuse into one pass that applies
    the formula of the specification to each distance, at every number
    type. *)
Section Formula.
Context {A : Type} {num : Number A}.

Lemma dose_at_distance_elementwise (d_m : ndarray A) (D1m r_ref : A) (att op : option A) :
  dose_at_distance d_m D1m r_ref att op
  = nd_map (fun x => spec_dose x D1m r_ref (with_default lit_one att) (with_default lit_one op))
           d_m.
Proof.
  unfold dose_at_distance, spec_dose. cbv zeta.
  now rewrite !nd_map_map.
Qed.

Lemma dose_scalar (d_m D1m r_ref att op : A) :
  dose d_m D1m r_ref att op = Scalar (spec_dose d_m D1m r_ref att op).
Proof. reflexivity. Qed.

Lemma dose_at_distance_size (d_m : ndarray A) (D1m r_ref : A) (att op : option A) :
  nd_size (dose_at_distance d_m D1m r_ref att op) = nd_size d_m.
Proof. rewrite dose_at_distance_elementwise. apply nd_size_map. Qed.

End Formula.

Lemma spec_dose_exact (d D r a o : Q) :
  spec_dose d D r a o = D * (r / Qmax d (1 # 1000000)) ^ 2 * a * o.
Proof. reflexivity. Qed.

Lemma spec_dose_binary64 (d D r a o : float) :
  spec_dose d D r a o
  = (let q := r / f64_maximum d 1e-6 in D * (q * q) * a * o)%float.
Proof. reflexivity. Qed.

(** C1.  For a scalar distance and for every element of an array of
    distances, and for every [D], [r0] (positive or not), [a] and [o],
    [dose_at_distance] clamps the distance to [max(d, 1e-6)] and returns
    [D * (r0 / clamped)^2 * a * o], in a value of the shape of its input;
    an omitted attenuation or operational factor counts as [1.0]. *)
Theorem dose_at_distance_formula (D r0 a o : Q) :
  (forall d : Q,
      dose_at_distance (Scalar d) D r0 (Some a) (Some o)
      = Scalar (D * (r0 / Qmax d (1 # 1000000)) ^ 2 * a * o))
  /\ (forall ds : list Q,
         dose_at_distance (Array ds) D r0 (Some a) (Some o)
         = Array (map (fun d => D * (r0 / Qmax d (1 # 1000000)) ^ 2 * a * o) ds))
  /\ (forall d : ndarray Q,
         dose_at_distance d D r0 (Some a) None = dose_at_distance d D r0 (Some a) (Some 1)
         /\ dose_at_distance d D r0 None (Some o) = dose_at_distance d D r0 (Some 1) (Some o)
         /\ dose_at_distance d D r0 None None = dose_at_distance d D r0 (Some 1) (Some 1)).
Proof.
  split; [| split]; intros d; rewrite ?dose_at_distance_elementwise; auto.
Qed.

(** The same in binary64, with the rounding of each operation. *)
Lemma dose_at_distance_formula_binary64 (d : ndarray float) (D r0 a o : float) :
  dose_at_distance d D r0 (Some a) (Some o)
  = nd_map (fun x => let q := r0 / f64_maximum x 1e-6 in D * (q * q) * a * o)%float d.
Proof. rewrite dose_at_distance_elementwise. reflexivity. Qed.

(** ** Exact arithmetic: the clamped distance and its inverse *)

Lemma clamp_floor (d : Q) : 1 # 1000000 <= Qmax d (1 # 1000000).
Proof. apply Q.le_max_r. Qed.

Lemma clamp_pos (d : Q) : 0 < Qmax d (1 # 1000000).
Proof. pose proof (clamp_floor d). lra. Qed.

Lemma clamp_id (d : Q) : 1 # 1000000 <= d -> Qmax d (1 # 1000000) == d.
Proof. intros H. apply Q.max_l. exact H. Qed.

Lemma clamp_low (d : Q) : d <= 1 # 1000000 -> Qmax d (1 # 1000000) == 1 # 1000000.
Proof. intros H. apply Q.max_r. exact H. Qed.

(** The divisor is never zero, so the square of the quotient is the square
    of [r] times the square of the inverse. *)
Lemma spec_dose_inv (d D r a o : Q) :
  spec_dose d D r a o
  == D * (r * r * (/ Qmax d (1 # 1000000) * / Qmax d (1 # 1000000))) * a * o.
Proof.
  rewrite spec_dose_exact. pose proof (clamp_pos d) as Hm.
  field. lra.
Qed.

Lemma inv_clamp_bounds (d : Q) :
  0 < / Qmax d (1 # 1000000) /\ / Qmax d (1 # 1000000) <= 1000000.
Proof.
  pose proof (clamp_pos d) as Hpos. pose proof (clamp_floor d) as Hfl.
  split.
  - now apply Qinv_lt_0_compat.
  - apply Qle_shift_inv_r; [exact Hpos | lra].
Qed.

Lemma inv_clamp_antitone (d1 d2 : Q) :
  d1 <= d2 -> / Qmax d2 (1 # 1000000) <= / Qmax d1 (1 # 1000000).
Proof.
  intros Hle.
  pose proof (clamp_pos d1) as H1. pose proof (clamp_pos d2) as H2.
  assert (Hm : Qmax d1 (1 # 1000000) <= Qmax d2 (1 # 1000000)).
  { apply Q.max_le_compat_r. exact Hle. }
  apply Qle_lteq in Hm. destruct Hm as [Hlt | Heq].
  - apply Qlt_le_weak. now apply (proj1 (Qinv_lt_contravar _ _ H1 H2)).
  - rewrite Heq. apply Qle_refl.
Qed.


Lemma scale_le (D a o s t : Q) :
  0 <= D -> 0 <= a -> 0 <= o -> s <= t -> D * s * a * o <= D * t * a * o.
Proof.
  intros HD Ha Ho Hst.
  repeat apply Qmult_le_compat_r; try assumption.
  rewrite !(Qmult_comm D). now apply Qmult_le_compat_r.
Qed.




Lemma spec_dose_antitone (d1 d2 D r a o : Q) :
  0 <= D -> 0 <= a -> 0 <= o -> d1 <= d2 ->
  spec_dose d2 D r a o <= spec_dose d1 D r a o.
Proof.
  intros HD Ha Ho Hle. rewrite !spec_dose_inv.
  destruct (inv_clamp_bounds d2) as [Hi2 _].
  pose proof (inv_clamp_antitone Hle) as Hi.
  set (i1 := / Qmax d1 (1 # 1000000)) in *.
  set (i2 := / Qmax d2 (1 # 1000000)) in *.
  apply scale_le; try assumption.
  assert (Hii : i2 * i2 <= i1 * i1) by nra.
  nra.
Qed.


(** ** The dose of every distance is non-negative and bounded *)




(** ** Decay with distance *)

(** The dose never increases with distance (exact arithmetic, non-negative
    parameters), and it is constant below the floor. *)
Lemma dose_non_increasing (d1 d2 D r0 a o : Q) :
  0 <= D -> 0 <= a -> 0 <= o -> d1 <= d2 ->
  nd_rel Qle (dose d2 D r0 a o) (dose d1 D r0 a o).
Proof.
  intros HD Ha Ho Hle. rewrite !dose_scalar. cbn [nd_rel].
  now apply spec_dose_antitone.
Qed.

Lemma dose_constant_below_floor (d1 d2 D r0 a o : Q) :
  d1 <= 1 # 1000000 -> d2 <= 1 # 1000000 ->
  nd_rel Qeq (dose d1 D r0 a o) (dose d2 D r0 a o).
Proof.
  intros H1 H2. rewrite !dose_scalar. cbn [nd_rel]. rewrite !spec_dose_exact.
  rewrite (clamp_low H1), (clamp_low H2). reflexivity.
Qed.




(** ** The inverse-square law *)




(** ** The reference point *)

(** C7 (as amended).  For every [D] and every reference distance
    [r0 >= 1e-6], the dose at the reference distance with both factors
    [1.0], given or omitted, is [D]. *)
Theorem reference_point_identity (D r0 : Q) :
  1 # 1000000 <= r0 ->
  nd_rel Qeq (dose r0 D r0 1 1) (Scalar D)
  /\ nd_rel Qeq (dose_at_distance (Scalar r0) D r0 None None) (Scalar D).
Proof.
  intros Hr.
  assert (E : spec_dose r0 D r0 1 1 == D).
  { rewrite spec_dose_exact, (clamp_id Hr). field. lra. }
  split; rewrite ?dose_scalar, ?dose_at_distance_elementwise; simpl; exact E.
Qed.

Lemma reference_point_identity_witness :
  nd_rel Qeq (dose (1 # 2) 50 (1 # 2) 1 1) (Scalar 50)
  /\ nd_rel Qeq (dose_at_distance (Scalar (1 # 2)) 50 (1 # 2) None None) (Scalar 50).
Proof.
  apply (@reference_point_identity 50 (1 # 2)). lra.
Defined.

(** C7, the claim as stated: a positive reference distance below the floor
    is divided by the floor, not by itself; at [r0 = 1e-7] the dose is
    [D / 100] (and the same, up to rounding, in binary64). *)
Lemma reference_point_fails_below_floor :
  (0 <= 50 /\ 0 < 1 # 10000000)
  /\ nd_rel Qeq (dose (1 # 10000000) 50 (1 # 10000000) 1 1) (Scalar (1 # 2))
  /\ ~ nd_rel Qeq (dose (1 # 10000000) 50 (1 # 10000000) 1 1) (Scalar 50)
  /\ dose 1e-7%float 50%float 1e-7%float 1%float 1%float
     = Scalar 0.50000000000000011%float.
Proof.
  repeat match goal with |- _ /\ _ => split end; evaluate.
Qed.

(** In binary64 the identity is exact at the reference distances the
    widgets offer first. *)
Lemma reference_point_identity_binary64 :
  dose 1%float 50%float 1%float 1%float 1%float = Scalar 50%float
  /\ dose 0.1%float 50%float 0.1%float 1%float 1%float = Scalar 50%float
  /\ dose 2.5%float 37.5%float 2.5%float 1%float 1%float = Scalar 37.5%float.
Proof. repeat split; evaluate. Qed.

(** ** Concrete evaluations *)

(** C8.  The three scenarios of the specification, in binary64 (where the
    results are exactly the stated numbers) and in exact arithmetic. *)
Theorem concrete_scenarios :
  (dose 2%float 50%float 1%float 1%float 1%float = Scalar 12.5%float
   /\ dose 1%float 50%float 1%float 0.5%float 1%float = Scalar 25%float
   /\ dose 1%float 50%float 1%float 1%float 1%float = Scalar 50%float)
  /\ (nd_rel Qeq (dose 2 50 1 1 1) (Scalar (25 # 2))
      /\ nd_rel Qeq (dose 1 50 1 (1 # 2) 1) (Scalar 25)
      /\ nd_rel Qeq (dose 1 50 1 1 1) (Scalar 50)).
Proof.
  split; repeat split; evaluate.
Qed.

(** ** Linearity *)


(** In binary64 each of these equalities holds up to the rounding of the
    products, which are taken in a different order on the two sides: here
    the two sides of the first one differ in the last bit. *)
Lemma dose_linear_rounding_binary64 :
  dose 1%float (0.1 * 0.2)%float 1%float 0.3%float 1%float
  = Scalar 0.006000000000000001%float
  /\ nd_map (PrimFloat.mul 0.1) (dose 1%float 0.2%float 1%float 0.3%float 1%float)
     = Scalar 0.006%float
  /\ PrimFloat.eqb 0.006000000000000001 0.006 = false.
Proof. repeat split; evaluate. Qed.

(** ** The grid of distances *)

Lemma arange_length (n : Z) : length (arange n) = Z.to_nat n.
Proof. unfold arange. now rewrite length_map, length_seq. Qed.

Lemma arange_nth (n : Z) (k : nat) :
  (k < Z.to_nat n)%nat -> nth k (arange n) 0%Z = Z.of_nat k.
Proof.
  intros Hk. unfold arange.
  change 0%Z with (Z.of_nat 0). rewrite map_nth, seq_nth by exact Hk.
  reflexivity.
Qed.

Lemma nth_map_arange {T : Type} (f : Z -> T) (n : Z) (k : nat) (dflt : T) :
  (k < Z.to_nat n)%nat -> nth k (map f (arange n)) dflt = f (Z.of_nat k).
Proof.
  intros Hk.
  rewrite (nth_indep _ dflt (f 0%Z)) by (now rewrite length_map, arange_length).
  rewrite map_nth. now rewrite arange_nth.
Qed.


Section SetLast.
Context {T : Type}.

Lemma removelast_length (y : list T) : length (removelast y) = pred (length y).
Proof.
  induction y as [| x y IH]; [reflexivity |].
  destruct y as [| x' y']; [reflexivity |].
  change (S (length (removelast (x' :: y'))) = S (length y')).
  now rewrite IH.
Qed.

Lemma set_last_length (y : list T) (v : T) :
  y <> [] -> length (set_last y v) = length y.
Proof.
  intros Hy. unfold set_last.
  rewrite length_app, removelast_length. simpl.
  destruct y; [congruence | simpl; lia].
Qed.

Lemma set_last_last (y : list T) (v dflt : T) : last (set_last y v) dflt = v.
Proof. unfold set_last. apply last_last. Qed.

Lemma set_last_nth_before (y : list T) (v dflt : T) (k : nat) :
  (S k < length y)%nat -> nth k (set_last y v) dflt = nth k y dflt.
Proof.
  intros Hk. unfold set_last.
  rewrite app_nth1 by (rewrite removelast_length; lia).
  revert k Hk. induction y as [| x y IH]; intros k Hk; [simpl in Hk; lia |].
  destruct y as [| x' y']; [simpl in Hk; lia |].
  destruct k as [| k]; [reflexivity |].
  change (nth k (removelast (x' :: y')) dflt = nth k (x' :: y') dflt).
  apply IH. simpl in *. lia.
Qed.

Lemma set_last_nth_last (y : list T) (v dflt : T) :
  y <> [] -> nth (pred (length y)) (set_last y v) dflt = v.
Proof.
  intros Hy. unfold set_last.
  rewrite app_nth2 by (rewrite removelast_length; lia).
  rewrite removelast_length, Nat.sub_diag. reflexivity.
Qed.

End SetLast.

(** What [linspace] returns at every number type: an error for a negative
    count only, and otherwise [n] numbers, the last of which is [stop] as
    soon as there are two. *)
Section LinspaceShape.
Context {A : Type} {num : Number A}.

Lemma linspace_negative (start stop : A) (n : Z) :
  (n < 0)%Z ->
  linspace start stop n
  = Raise (ValueError "Number of samples, %s, must be non-negative." n).
Proof.
  intros Hn. unfold linspace.
  apply Z.ltb_lt in Hn. now rewrite Hn.
Qed.

Lemma linspace_shape (start stop : A) (n : Z) :
  (0 <= n)%Z ->
  exists y,
    linspace start stop n = Ok y
    /\ length y = Z.to_nat n
    /\ ((2 <= n)%Z -> last y start = stop).
Proof.
  intros Hn. unfold linspace.
  destruct (Z.ltb_spec n 0) as [Hneg | _]; [lia |].
  cbv zeta.
  set (y := map (fun v => add v start) _).
  assert (Hy : length y = Z.to_nat n).
  { subst y. rewrite length_map.
    destruct (0 <? n - 1)%Z; [destruct (num_eqb _ _) |];
      now rewrite !length_map, arange_length. }
  destruct (Z.ltb_spec 1 n) as [Hlt | Hle].
  - eexists. split; [reflexivity |]. split.
    + rewrite set_last_length; [exact Hy |].
      intros E. rewrite E in Hy. simpl in Hy. lia.
    + intros _. apply set_last_last.
  - eexists. split; [reflexivity |]. split; [exact Hy | lia].
Qed.

End LinspaceShape.

Lemma inject_Z_pos (z : Z) : (0 < z)%Z -> 0 < inject_Z z.
Proof. intros Hz. change 0 with (inject_Z 0). now rewrite <- Zlt_Qlt. Qed.

Lemma grid_point_first (start stop : Q) (n : Z) : grid_point start stop n 0 == start.
Proof. unfold grid_point. simpl. ring. Qed.

Lemma grid_point_last (start stop : Q) (n : Z) :
  (2 <= n)%Z -> grid_point start stop n (pred (Z.to_nat n)) == stop.
Proof.
  intros Hn. unfold grid_point.
  assert (Hdiv : 0 < inject_Z (n - 1)) by (apply inject_Z_pos; lia).
  replace (Z.of_nat (pred (Z.to_nat n))) with (n - 1)%Z by lia.
  field. lra.
Qed.

Lemma grid_point_increasing (start stop : Q) (n : Z) (i j : nat) :
  start < stop -> (2 <= n)%Z -> (i < j)%nat ->
  grid_point start stop n i < grid_point start stop n j.
Proof.
  intros Hlt Hn Hij. unfold grid_point.
  assert (Hdiv : 0 < inject_Z (n - 1)) by (apply inject_Z_pos; lia).
  assert (Hstep : 0 < (stop - start) / inject_Z (n - 1)).
  { apply Qlt_shift_div_l; [exact Hdiv | lra]. }
  assert (Hidx : inject_Z (Z.of_nat i) < inject_Z (Z.of_nat j)).
  { rewrite <- Zlt_Qlt. lia. }
  set (step := (stop - start) / inject_Z (n - 1)) in *.
  nra.
Qed.

(** Overwriting the last of [n] evenly spaced numbers with [stop] leaves
    them evenly spaced. *)
Lemma set_last_grid (start stop : Q) (n : Z) (y : list Q) :
  (2 <= n)%Z ->
  length y = Z.to_nat n ->
  (forall k, (k < Z.to_nat n)%nat -> nth k y 0 == grid_point start stop n k) ->
  length (set_last y stop) = Z.to_nat n
  /\ last (set_last y stop) 0 = stop
  /\ forall k, (k < Z.to_nat n)%nat ->
               nth k (set_last y stop) 0 == grid_point start stop n k.
Proof.
  intros Hn Hy Hk.
  assert (Hy0 : y <> []).
  { intros E. rewrite E in Hy. simpl in Hy. lia. }
  split; [now rewrite set_last_length |].
  split; [apply set_last_last |].
  intros k Hlt. destruct (Nat.eq_dec k (pred (length y))) as [-> | Hmid].
  - rewrite set_last_nth_last by exact Hy0.
    rewrite Hy. symmetry. now apply grid_point_last.
  - rewrite set_last_nth_before by lia. now apply Hk.
Qed.

(** In exact arithmetic the numbers of [linspace] are evenly spaced between
    the bounds, whatever the order of the bounds. *)
Lemma linspace_grid (start stop : Q) (n : Z) :
  (2 <= n)%Z ->
  exists y,
    linspace start stop n = Ok y
    /\ length y = Z.to_nat n
    /\ last y 0 = stop
    /\ forall k, (k < Z.to_nat n)%nat -> nth k y 0 == grid_point start stop n k.
Proof.
  intros Hn.
  assert (Hdiv : 0 < inject_Z (n - 1)) by (apply inject_Z_pos; lia).
  unfold linspace. count_at_least_two n.
  cbn [of_int sub add mul div num_eqb lit_zero exact].
  set (step := (stop - start) / inject_Z (n - 1)).
  destruct (Qeq_bool step 0) eqn:Hstep; rewrite !map_map;
    eexists; (split; [reflexivity |]); apply set_last_grid; try assumption;
    try (now rewrite length_map, arange_length);
    intros k Hk; rewrite nth_map_arange by exact Hk;
    unfold grid_point; fold step; [| ring].
  apply Qeq_bool_eq in Hstep.
  assert (E : stop - start == 0).
  { setoid_replace (stop - start) with (step * inject_Z (n - 1))
      by (unfold step; field; lra).
    rewrite Hstep. ring. }
  rewrite Hstep, E. ring.
Qed.

(** Between increasing bounds they increase. *)
Lemma linspace_increasing (start stop : Q) (n : Z) :
  start < stop -> (2 <= n)%Z ->
  exists y,
    linspace start stop n = Ok y
    /\ length y = Z.to_nat n
    /\ (forall k, (k < Z.to_nat n)%nat -> nth k y 0 == grid_point start stop n k)
    /\ (forall i j, (i < j < Z.to_nat n)%nat -> nth i y 0 < nth j y 0)
    /\ nth 0 y 0 == start
    /\ last y 0 = stop.
Proof.
  intros Hlt Hn.
  destruct (linspace_grid start stop Hn) as (y & Hy & Hlen & Hlast & Hpt).
  exists y. split; [exact Hy |]. split; [exact Hlen |]. split; [exact Hpt |].
  split; [| split; [| exact Hlast]].
  - intros i j [Hij Hj]. rewrite (Hpt i), (Hpt j) by lia.
    now apply grid_point_increasing.
  - rewrite (Hpt 0%nat) by lia. apply grid_point_first.
Qed.

(** ** The curve *)




(** The scenario of section 8 in binary64: 200 samples from 0.5 to 5.0,
    strictly increasing, the first at 0.5 and the last at 5.0. *)
Lemma sample_curve_scenario_binary64 :
  exists d_grid D_grid,
    sample_curve 0.5%float 5%float 200 50%float 1%float 1%float 1%float
    = Ok (d_grid, Array D_grid)
    /\ length d_grid = 200%nat /\ length D_grid = 200%nat
    /\ nth 0 d_grid nan = 0.5%float
    /\ last d_grid nan = 5%float
    /\ f64_increasing d_grid = true.
Proof.
  eexists. eexists. split; [vm_compute; reflexivity |].
  repeat split; evaluate.
Qed.

(** ** Ranges the curve is not meant for *)




(** The widgets keep such ranges away from the curve: inside their declared
    bounds the range is valid and the curve of a run is the increasing grid
    from [dist_min] to [dist_max]. *)
Lemma run_curve_in_widget_bounds (ss : Script.session_state Q) (w : Script.widgets Q) :
  Script.in_widget_bounds w ->
  0 < Script.dist_min w
  /\ Script.dist_min w < Script.dist_max w
  /\ (0 < Script.num_pts w)%Z
  /\ exists d_grid D_grid,
       Script.curve (snd (Script.run ss w)) = Ok (d_grid, D_grid)
       /\ length d_grid = Z.to_nat (Script.num_pts w)
       /\ nd_size D_grid = Z.to_nat (Script.num_pts w)
       /\ nth 0 d_grid 0 == Script.dist_min w
       /\ last d_grid 0 = Script.dist_max w
       /\ (forall i j, (i < j < Z.to_nat (Script.num_pts w))%nat ->
                       nth i d_grid 0 < nth j d_grid 0).
Proof.
  intros (_ & _ & _ & _ & _ & Hmin & Hmax & Hn & _).
  assert (Hlt : Script.dist_min w < Script.dist_max w) by lra.
  assert (H2 : (2 <= Script.num_pts w)%Z) by lia.
  split; [lra |]. split; [exact Hlt |]. split; [lia |].
  destruct (linspace_increasing Hlt H2) as (y & Hy & Hlen & _ & Hinc & Hfirst & Hlast).
  eexists. eexists. unfold Script.run, sample_curve. cbn [snd Script.curve].
  rewrite Hy. split; [reflexivity |].
  rewrite dose_at_distance_size. simpl nd_size. auto.
Qed.

(** ** Determinism *)

(** After lines 67-78 the applied distance is present, so the distance of
    the metric is read from the session state and never defaulted. *)
Lemma apply_distance_present {A : Type} {num : Number A}
    (ss : Script.session_state A) (w : Script.widgets A) :
  exists d, Script.dist_aplicada (Script.apply_distance ss w) = Some d.
Proof.
  unfold Script.apply_distance.
  destruct (Script.aplicar w); [eexists; reflexivity |].
  destruct (Script.dist_aplicada ss) eqn:E; eexists; [exact E | reflexivity].
Qed.



(** The session state is what the rest of the page depends on: the metric
    of a run follows the applied distance. *)
Lemma run_metric_follows_state :
  Script.d (snd (Script.run {| Script.dist_aplicada := None |} (Script.initial_widgets 3 true)))
  = 3
  /\ Script.d (snd (Script.run {| Script.dist_aplicada := Some 2 |}
                               (Script.initial_widgets 7 false)))
     = 2
  /\ Script.d (snd (Script.run {| Script.dist_aplicada := None |}
                               (Script.initial_widgets 7 false)))
     = 1.
Proof. repeat split. Qed.

(** * Further properties of the code *)

(** ** The dose model at its edges *)

Lemma nd_rel_map_all {A B C : Type} (P : A -> Prop) (R : B -> C -> Prop)
    (f : A -> B) (g : A -> C) (v : ndarray A) :
  nd_all P v -> (forall x, P x -> R (f x) (g x)) -> nd_rel R (nd_map f v) (nd_map g v).
Proof.
  intros Hv HR. destruct v as [x | xs]; simpl in *; [now apply HR |].
  induction Hv as [| x xs Hx Hxs IH]; simpl; constructor; auto.
Qed.

(** X1.  Every distance at or below [1e-6], zero and negative ones included,
    gets the dose of the floor, [D * (r0 * 1e6)^2 * a * o], whatever the
    parameters are. *)
Theorem dose_at_or_below_floor (d : ndarray Q) (D r0 a o : Q) :
  nd_all (fun x => x <= 1 # 1000000) d ->
  nd_rel Qeq (dose_at_distance d D r0 (Some a) (Some o))
             (nd_map (fun _ => D * (r0 * 1000000) ^ 2 * a * o) d).
Proof.
  intros Hd. rewrite dose_at_distance_elementwise.
  eapply nd_rel_map_all; [exact Hd |]. intros x Hx. simpl with_default.
  rewrite spec_dose_exact, (clamp_low Hx). field.
Qed.

Lemma dose_at_or_below_floor_witness :
  nd_rel Qeq (dose_at_distance (Array [0; -3; 1 # 1000000]) 50 1 (Some (1 # 2)) (Some 1))
             (nd_map (fun _ => 50 * (1 * 1000000) ^ 2 * (1 # 2) * 1)
                     (Array [0; -3; 1 # 1000000])).
Proof.
  apply (@dose_at_or_below_floor (Array [0; -3; 1 # 1000000]) 50 1 (1 # 2) 1).
  simpl. repeat constructor; discriminate.
Defined.

(** X2.  At and above [1e-6] the clamp changes nothing: the dose is the plain
    inverse-square value [D * (r0 / d)^2 * a * o]. *)
Theorem dose_above_floor (d : ndarray Q) (D r0 a o : Q) :
  nd_all (fun x => 1 # 1000000 <= x) d ->
  nd_rel Qeq (dose_at_distance d D r0 (Some a) (Some o))
             (nd_map (fun x => D * (r0 / x) ^ 2 * a * o) d).
Proof.
  intros Hd. rewrite dose_at_distance_elementwise.
  eapply nd_rel_map_all; [exact Hd |]. intros x Hx. simpl with_default.
  rewrite spec_dose_exact, (clamp_id Hx). reflexivity.
Qed.

Lemma dose_above_floor_witness :
  nd_rel Qeq (dose_at_distance (Array [1 # 10; 2; 5]) 50 1 (Some 1) (Some 2))
             (nd_map (fun x => 50 * (1 / x) ^ 2 * 1 * 2) (Array [1 # 10; 2; 5])).
Proof.
  apply (@dose_above_floor (Array [1 # 10; 2; 5]) 50 1 1 2).
  simpl. repeat constructor; discriminate.
Defined.



(** X4.  The sign of the reference distance is not looked at: [r_ref] enters
    through its square, so [-r0] gives the doses of [r0]. *)
Theorem dose_even_in_reference_distance (d : ndarray Q) (D r0 : Q) (att op : option Q) :
  nd_rel Qeq (dose_at_distance d D (- r0) att op) (dose_at_distance d D r0 att op).
Proof.
  rewrite !dose_at_distance_elementwise. apply nd_rel_map. intros x.
  rewrite !spec_dose_inv. ring.
Qed.




Lemma spec_dose_compat :
  Proper (Qeq ==> Qeq ==> Qeq ==> Qeq ==> Qeq ==> Qeq) (spec_dose (A := Q)).
Proof.
  intros d d' Hd D D' HD r r' Hr a a' Ha o o' Ho.
  rewrite !spec_dose_exact. now rewrite Hd, HD, Hr, Ha, Ho.
Qed.

#[export] Existing Instance spec_dose_compat.

(** ** The clamp in binary64 *)

Lemma f64_maximum_floor (x : float) :
  (PrimFloat.is_nan x = true /\ f64_maximum x 1e-6 = x)
  \/ (PrimFloat.is_nan x = false
      /\ PrimFloat.leb 1e-6 (f64_maximum x 1e-6) = true
      /\ (f64_maximum x 1e-6 = x \/ f64_maximum x 1e-6 = 1e-6%float)).
Proof.
  unfold f64_maximum.
  destruct (PrimFloat.is_nan x) eqn:Hnan; [left; split; reflexivity |].
  right. split; [reflexivity |]. simpl.
  destruct (PrimFloat.leb 1e-6 x) eqn:Hle.
  - split; [exact Hle | left; reflexivity].
  - split; [reflexivity | right; reflexivity].
Qed.

Lemma f64_maximum_idempotent (x : float) :
  f64_maximum (f64_maximum x 1e-6) 1e-6 = f64_maximum x 1e-6.
Proof.
  unfold f64_maximum.
  destruct (PrimFloat.is_nan x) eqn:Hnan; simpl; [now rewrite Hnan |].
  destruct (PrimFloat.leb 1e-6 x) eqn:Hle; [now rewrite Hnan, Hle | reflexivity].
Qed.

(** X7.  In binary64 the quotient is never taken by zero or by a negative
    number: for every distance that is not a NaN, the dose is computed with
    a divisor that is at least [1e-6], the distance itself or the floor. *)
Theorem dose_divisor_binary64 (x D r0 a o : float) :
  PrimFloat.is_nan x = false ->
  exists m : float,
    PrimFloat.leb 1e-6 m = true
    /\ (m = x \/ m = 1e-6%float)
    /\ dose x D r0 a o = Scalar (D * (r0 / m * (r0 / m)) * a * o)%float.
Proof.
  intros Hnan. exists (f64_maximum x 1e-6).
  destruct (f64_maximum_floor x) as [[Hx _] | (_ & Hle & Hm)]; [congruence |].
  split; [exact Hle |]. split; [exact Hm |]. reflexivity.
Qed.

Lemma dose_divisor_binary64_witness :
  exists m : float,
    PrimFloat.leb 1e-6 m = true
    /\ (m = (-0)%float \/ m = 1e-6%float)
    /\ dose (-0)%float 50%float 1%float 1%float 1%float
       = Scalar (50 * (1 / m * (1 / m)) * 1 * 1)%float.
Proof.
  apply (@dose_divisor_binary64 (-0)%float 50%float 1%float 1%float 1%float).
  reflexivity.
Defined.

(** X8.  Clamping the distances before the call changes no dose, in binary64
    (NaN distances included) as in exact arithmetic. *)
Theorem dose_of_clamped_distance :
  (forall (d : ndarray float) (D r0 : float) (att op : option float),
      dose_at_distance (nd_map (fun x => f64_maximum x 1e-6) d) D r0 att op
      = dose_at_distance d D r0 att op)
  /\ (forall (d : ndarray Q) (D r0 : Q) (att op : option Q),
         nd_rel Qeq
           (dose_at_distance (nd_map (fun x => Qmax x (1 # 1000000)) d) D r0 att op)
           (dose_at_distance d D r0 att op)).
Proof.
  split; intros d D r0 att op; rewrite !dose_at_distance_elementwise, nd_map_map.
  - destruct d as [x | xs]; simpl; [f_equal | f_equal; apply map_ext; intros x];
      unfold spec_dose; cbn [maximum lit_eps binary64];
      now rewrite f64_maximum_idempotent.
  - apply nd_rel_map. intros x.
    rewrite !spec_dose_exact.
    rewrite (clamp_id (clamp_floor x)). reflexivity.
Qed.

(** ** The distances and doses of the curve *)

Lemma linspace_zero {A : Type} {num : Number A} (start stop : A) :
  linspace start stop 0 = Ok [].
Proof. reflexivity. Qed.

Lemma linspace_one {A : Type} {num : Number A} (start stop : A) :
  linspace start stop 1 = Ok [add (mul (of_int 0) (sub stop start)) start].
Proof. reflexivity. Qed.

Lemma grid_point_bounds (start stop : Q) (n : Z) (k : nat) :
  start <= stop -> (2 <= n)%Z -> (k < Z.to_nat n)%nat ->
  start <= grid_point start stop n k /\ grid_point start stop n k <= stop.
Proof.
  intros Hle Hn Hk. unfold grid_point.
  assert (Hdiv : 0 < inject_Z (n - 1)) by (apply inject_Z_pos; lia).
  assert (Hstep : 0 <= (stop - start) / inject_Z (n - 1)).
  { apply Qle_shift_div_l; [exact Hdiv | lra]. }
  assert (Hspan : (stop - start) / inject_Z (n - 1) * inject_Z (n - 1) == stop - start)
    by (field; lra).
  assert (Hk0 : 0 <= inject_Z (Z.of_nat k)).
  { change 0 with (inject_Z 0). rewrite <- Zle_Qle. lia. }
  assert (Hk1 : inject_Z (Z.of_nat k) <= inject_Z (n - 1)).
  { rewrite <- Zle_Qle. lia. }
  set (step := (stop - start) / inject_Z (n - 1)) in *.
  split; nra.
Qed.





(** X10.  When the range starts at [1e-6] or above, no distance of the curve
    is clamped: every dose of the curve is the plain inverse-square value
    [D * (r0 / d)^2 * a * o] of its distance. *)
Theorem sample_curve_inverse_square (dist_min dist_max : Q) (num_pts : Z) (D r0 a o : Q) :
  1 # 1000000 <= dist_min -> dist_min <= dist_max -> (2 <= num_pts)%Z ->
  exists d_grid D_grid,
    sample_curve dist_min dist_max num_pts D r0 a o = Ok (d_grid, Array D_grid)
    /\ Forall2 (fun x v => v == D * (r0 / x) ^ 2 * a * o) d_grid D_grid.
Proof.
  intros Hfl Hle Hn.
  destruct (linspace_grid dist_min dist_max Hn) as (y & Hy & Hlen & _ & Hpt).
  exists y, (map (fun x => spec_dose x D r0 a o) y).
  unfold sample_curve. rewrite Hy, dose_at_distance_elementwise. simpl.
  split; [reflexivity |].
  assert (Hall : Forall (fun x => 1 # 1000000 <= x) y).
  { apply Forall_nth. intros k dflt Hk.
    rewrite (nth_indep _ dflt 0) by exact Hk.
    rewrite Hlen in Hk. rewrite (Hpt k Hk).
    destruct (grid_point_bounds Hle Hn Hk). lra. }
  clear - Hall. induction Hall as [| x l Hx Hl IH]; simpl; constructor; auto.
  rewrite spec_dose_exact, (clamp_id Hx). reflexivity.
Qed.

Lemma sample_curve_inverse_square_witness :
  exists d_grid D_grid,
    sample_curve (1 # 2) 5 200 50 1 1 1 = Ok (d_grid, Array D_grid)
    /\ Forall2 (fun x v => v == 50 * (1 / x) ^ 2 * 1 * 1) d_grid D_grid.
Proof.
  apply (@sample_curve_inverse_square (1 # 2) 5 200 50 1 1 1);
    [discriminate | discriminate | lia].
Defined.





(** X13.  With equal bounds the curve is flat: for every count [>= 0] all
    its distances are the bound and all its doses the dose of the bound. *)
Theorem sample_curve_equal_bounds (bound : Q) (num_pts : Z) (D r0 a o : Q) :
  (0 <= num_pts)%Z ->
  exists d_grid D_grid,
    sample_curve bound bound num_pts D r0 a o = Ok (d_grid, Array D_grid)
    /\ length d_grid = Z.to_nat num_pts
    /\ Forall (fun x => x == bound) d_grid
    /\ Forall (fun v => nd_rel Qeq (dose bound D r0 a o) (Scalar v)) D_grid.
Proof.
  intros Hn.
  assert (Hshape : exists y, linspace bound bound num_pts = Ok y
                             /\ length y = Z.to_nat num_pts
                             /\ Forall (fun x => x == bound) y).
  { destruct (Z.eq_dec num_pts 0) as [-> | H0];
      [exists []; repeat split; constructor |].
    destruct (Z.eq_dec num_pts 1) as [-> | H1].
    { eexists. split; [apply linspace_one |]. split; [reflexivity |].
      constructor; [| constructor]. cbn [add mul sub of_int exact]. ring. }
    assert (H2 : (2 <= num_pts)%Z) by lia.
    destruct (linspace_grid bound bound H2) as (y & Hy & Hlen & _ & Hpt).
    exists y. split; [exact Hy |]. split; [exact Hlen |].
    apply Forall_nth. intros k dflt Hk.
    rewrite (nth_indep _ dflt 0) by exact Hk.
    rewrite Hlen in Hk. rewrite (Hpt k Hk). unfold grid_point.
    assert (Hdiv : 0 < inject_Z (num_pts - 1)) by (apply inject_Z_pos; lia).
    field. lra. }
  destruct Hshape as (y & Hy & Hlen & Hall).
  exists y, (map (fun x => spec_dose x D r0 a o) y).
  unfold sample_curve. rewrite Hy, dose_at_distance_elementwise. simpl.
  split; [reflexivity |]. split; [exact Hlen |]. split; [exact Hall |].
  clear - Hall. induction Hall as [| x l Hx Hl IH]; simpl; constructor; auto.
  change (spec_dose bound D r0 a o == spec_dose x D r0 a o). now rewrite Hx.
Qed.

Lemma sample_curve_equal_bounds_witness :
  exists d_grid D_grid,
    sample_curve 2 2 50 50 1 1 1 = Ok (d_grid, Array D_grid)
    /\ length d_grid = Z.to_nat 50
    /\ Forall (fun x => x == 2) d_grid
    /\ Forall (fun v => nd_rel Qeq (dose 2 50 1 1 1) (Scalar v)) D_grid.
Proof.
  apply (@sample_curve_equal_bounds 2 50 50 1 1 1). lia.
Defined.


(** ** The marker and the curve *)




(** ** The applied distance across runs *)

Section Reruns.
Context {A : Type} {num : Number A}.

Lemma rerun_snoc (ss : Script.session_state A) (ws : list (Script.widgets A))
    (w : Script.widgets A) :
  rerun ss (ws ++ [w]) = fst (Script.run (rerun ss ws) w).
Proof. unfold rerun. now rewrite fold_left_app. Qed.

Lemma last_applied_snoc (ws : list (Script.widgets A)) (w : Script.widgets A) :
  last_applied (ws ++ [w])
  = if Script.aplicar w then Some (Script.dist_input w) else last_applied ws.
Proof.
  induction ws as [| w' ws IH]; simpl.
  - destruct (Script.aplicar w); reflexivity.
  - rewrite IH. destruct (Script.aplicar w); [reflexivity |].
    destruct (last_applied ws); reflexivity.
Qed.

Lemma run_state (ss : Script.session_state A) (w : Script.widgets A) :
  Script.dist_aplicada (fst (Script.run ss w))
  = Some (if Script.aplicar w then Script.dist_input w
          else with_default lit_one (Script.dist_aplicada ss)).
Proof.
  unfold Script.run, Script.apply_distance. cbn [fst].
  destruct (Script.aplicar w); [reflexivity |].
  destruct ss as [[x |]]; reflexivity.
Qed.

Lemma run_shows_state (ss : Script.session_state A) (w : Script.widgets A) :
  Script.dist_aplicada (fst (Script.run ss w)) = Some (Script.d (snd (Script.run ss w))).
Proof.
  unfold Script.run. cbn [fst snd Script.d].
  destruct (apply_distance_present ss w) as [x Hx]. now rewrite Hx.
Qed.

(** X16.  Across any number of runs the applied distance is the distance
    input of the latest run in which the button was pressed; when it was
    never pressed it is what the session held before, [1.0] for a fresh
    session.  Inputs typed without pressing the button, and changes of any
    other widget, leave it as it is. *)
Theorem rerun_applied_distance (ss : Script.session_state A) (ws : list (Script.widgets A)) :
  ws <> [] ->
  Script.dist_aplicada (rerun ss ws)
  = Some (with_default (with_default lit_one (Script.dist_aplicada ss)) (last_applied ws)).
Proof.
  induction ws as [| w ws IH] using rev_ind; [congruence |]. intros _.
  rewrite rerun_snoc, run_state, last_applied_snoc.
  destruct (Script.aplicar w); [reflexivity |].
  destruct ws as [| w' ws']; [reflexivity |].
  rewrite IH by discriminate. reflexivity.
Qed.

(** X17.  A rerun with unchanged widgets changes nothing: the session state
    and everything shown are those of the run before, also when that run
    applied a distance. *)
Theorem run_idempotent (ss : Script.session_state A) (w : Script.widgets A) :
  Script.run (fst (Script.run ss w)) w = Script.run ss w.
Proof.
  unfold Script.run, Script.apply_distance. cbn [fst].
  destruct (Script.aplicar w); [reflexivity |].
  destruct ss as [[x |]]; reflexivity.
Qed.

(** One run: the distance of the metric is the applied distance the run
    leaves in the session; a pressed button shows its input in the same
    run, and without it a present applied distance stays. *)
Lemma run_shows_applied_distance (ss : Script.session_state A) (w : Script.widgets A) :
  Script.dist_aplicada (fst (Script.run ss w)) = Some (Script.d (snd (Script.run ss w)))
  /\ (Script.aplicar w = true -> Script.d (snd (Script.run ss w)) = Script.dist_input w)
  /\ (Script.aplicar w = false ->
      forall x, Script.dist_aplicada ss = Some x ->
                fst (Script.run ss w) = ss /\ Script.d (snd (Script.run ss w)) = x).
Proof.
  split; [apply run_shows_state |].
  unfold Script.run, Script.apply_distance. cbn [fst snd Script.d].
  split; intros Hb; rewrite Hb; [reflexivity |].
  intros x Hx. rewrite Hx. destruct ss as [s]. simpl in Hx. subst s. now split.
Qed.

End Reruns.

Lemma rerun_applied_distance_witness :
  Script.dist_aplicada
    (rerun {| Script.dist_aplicada := None |}
           [Script.initial_widgets 3 true; Script.initial_widgets 7 false;
            Script.initial_widgets 9 false])
  = Some (with_default (with_default 1 None)
            (last_applied [Script.initial_widgets 3 true; Script.initial_widgets 7 false;
                           Script.initial_widgets 9 false])).
Proof.
  apply (@rerun_applied_distance Q exact {| Script.dist_aplicada := None |}
           [Script.initial_widgets 3 true; Script.initial_widgets 7 false;
            Script.initial_widgets 9 false]).
  discriminate.
Defined.

(** ** Within the bounds of the widgets *)

Lemma in_bounds_initial (dist_input : Q) (aplicar : bool) :
  1 # 10 <= dist_input -> Script.in_widget_bounds (Script.initial_widgets dist_input aplicar).
Proof.
  intros H. unfold Script.in_widget_bounds. simpl.
  repeat split; try assumption; try discriminate; lia.
Qed.

Lemma run_in_bounds (ss : Script.session_state Q) (w : Script.widgets Q) :
  state_in_bounds ss -> Script.in_widget_bounds w ->
  state_in_bounds (fst (Script.run ss w)).
Proof.
  intros Hss Hw. unfold state_in_bounds. rewrite run_state.
  destruct Hw as (_ & _ & _ & _ & Hin & _).
  destruct (Script.aplicar w); [exact Hin |].
  unfold state_in_bounds in Hss.
  destruct (Script.dist_aplicada ss); simpl; [exact Hss | discriminate].
Qed.

(** X18.  The applied distance never drops below the minimum of its input:
    from a session within the bounds (a fresh one is), any number of runs
    whose widgets are within their declared bounds leaves a session within
    the bounds. *)
Theorem rerun_in_bounds (ss : Script.session_state Q) (ws : list (Script.widgets Q)) :
  state_in_bounds ss -> Forall Script.in_widget_bounds ws ->
  state_in_bounds (rerun ss ws).
Proof.
  intros Hss Hws.
  revert ss Hss. induction Hws as [| w ws Hw Hws IH]; intros ss Hss; [exact Hss |].
  change (state_in_bounds (rerun (fst (Script.run ss w)) ws)).
  apply IH. now apply run_in_bounds.
Qed.

Lemma rerun_in_bounds_witness :
  state_in_bounds
    (rerun {| Script.dist_aplicada := None |}
           [Script.initial_widgets 3 true; Script.initial_widgets (1 # 10) true]).
Proof.
  apply (@rerun_in_bounds {| Script.dist_aplicada := None |}
           [Script.initial_widgets 3 true; Script.initial_widgets (1 # 10) true]).
  - exact I.
  - repeat constructor; apply in_bounds_initial; discriminate.
Defined.







(** ** The shape of the curve in binary64 *)

(** X22.  At either number type, so in binary64 and whatever the bounds and
    parameters are (NaN and infinities included): for a count [>= 0] the
    curve has exactly that many distances and doses, from two points on the
    last distance is [dist_max] itself, and a negative count is the only
    failure. *)
Theorem sample_curve_shape {A : Type} {num : Number A}
    (dist_min dist_max : A) (num_pts : Z) (D r0 a o : A) :
  ((0 <= num_pts)%Z ->
   exists d_grid D_grid,
     sample_curve dist_min dist_max num_pts D r0 a o = Ok (d_grid, Array D_grid)
     /\ length d_grid = Z.to_nat num_pts
     /\ length D_grid = Z.to_nat num_pts
     /\ ((2 <= num_pts)%Z -> last d_grid dist_min = dist_max))
  /\ ((num_pts < 0)%Z ->
      sample_curve dist_min dist_max num_pts D r0 a o
      = Raise (ValueError "Number of samples, %s, must be non-negative." num_pts)).
Proof.
  split.
  - intros Hn. unfold sample_curve.
    destruct (linspace_shape dist_min dist_max Hn) as (y & Hy & Hlen & Hlast).
    exists y, (map (fun x => spec_dose x D r0 a o) y).
    rewrite Hy, dose_at_distance_elementwise. simpl.
    split; [reflexivity |]. split; [exact Hlen |].
    split; [now rewrite length_map | exact Hlast].
  - intros Hn. unfold sample_curve. now rewrite linspace_negative.
Qed.

Lemma sample_curve_shape_witness :
  (exists d_grid D_grid,
     sample_curve nan infinity 50 50%float 1%float 1%float 1%float
     = Ok (d_grid, Array D_grid)
     /\ length d_grid = Z.to_nat 50
     /\ length D_grid = Z.to_nat 50
     /\ ((2 <= 50)%Z -> last d_grid nan = infinity))
  /\ sample_curve 0.5%float 5%float (-10) 50%float 1%float 1%float 1%float
     = Raise (ValueError "Number of samples, %s, must be non-negative." (-10)).
Proof.
  split.
  - apply (proj1 (@sample_curve_shape float binary64 nan infinity 50
                    50%float 1%float 1%float 1%float)). lia.
  - apply (proj2 (@sample_curve_shape float binary64 0.5%float 5%float (-10)
                    50%float 1%float 1%float 1%float)). lia.
Defined.
